(** * Automobile edge costing: [valhalla::thor::AutoCost]

    A shallow embedding of [src/thor/autocost.cc].  The costing object owns
    one array, [speedfactor_], written by the constructor and read by
    [Get], [Seconds] and [AStarCostFactor]; [Allowed] is a pure decision on
    the attributes of a directed edge, a restriction mask, a u-turn flag and
    the distance to the destination.

    C++ [float] is IEEE-754 binary32 and [double] is binary64.  Both are
    modelled with the Standard Library's executable specification of
    IEEE-754 arithmetic ([SpecFloat], round to nearest, ties to even), at
    precision 24 / 53. *)

From Stdlib Require Import ZArith Bool QArith Qpower Lia Lqa.
From Stdlib Require Import SpecFloat.
From stdpp Require Import base list list_numbers.

Local Open Scope Z_scope.

(** ** Machine numbers *)

(** Conversion of an integer value to [uint32_t]. *)
Definition to_uint32 (x : Z) : Z := x mod 2 ^ 32.

(** Conversion of an integer to [bool]: non-zero is [true]. *)
Definition to_bool (x : Z) : bool := negb (x =? 0).

(** IEEE-754 binary32, the C++ [float]. *)
Module F32.
Definition prec : Z := 24.
Definition emax : Z := 128.

(** [static_cast<float>(n)], and integral literals such as [50000.0f]. *)
Definition of_Z (n : Z) : spec_float := binary_normalize prec emax n 0 false.

Definition mul : spec_float -> spec_float -> spec_float := SFmul prec emax.
Definition div : spec_float -> spec_float -> spec_float := SFdiv prec emax.

(** [x < y] and [x > y]; both are [false] when an operand is a NaN. *)
Definition ltb (x y : spec_float) : bool := SFltb x y.
Definition gtb (x y : spec_float) : bool := SFltb y x.
Definition leb (x y : spec_float) : bool := SFleb x y.

(** The values of the format: canonical mantissa, exponent in range. *)
Definition valid (x : spec_float) : bool := valid_binary prec emax x.

(** The literal [0.001f]: the binary32 number nearest to 1/1000. *)
Definition lit_0_001 : spec_float := div (of_Z 1) (of_Z 1000).
End F32.

(** IEEE-754 binary64, the C++ [double]. *)
Module F64.
Definition prec : Z := 53.
Definition emax : Z := 1024.

Definition of_Z (n : Z) : spec_float := binary_normalize prec emax n 0 false.

(** Floating-point promotion [float -> double]; it keeps the value and
    renormalises the mantissa to 53 bits. *)
Definition of_float (x : spec_float) : spec_float :=
  match x with
  | S754_finite s m e => binary_round prec emax s m e
  | _ => x
  end.

Definition gtb (x y : spec_float) : bool := SFltb y x.
End F64.

(** The rational value of a finite floating-point number (0 for the
    others, which [is_finite] tells apart). *)
Definition SF2Q (x : spec_float) : Q :=
  match x with
  | S754_finite s m e => (inject_Z (cond_Zopp s (Zpos m)) * 2 ^ e)%Q
  | _ => 0%Q
  end.

Definition is_finite (x : spec_float) : bool :=
  match x with
  | S754_zero _ | S754_finite _ _ _ => true
  | _ => false
  end.


(** ** The graph records read by the costing ([valhalla::baldr]) *)

Module baldr.

(** [GraphId]: only the hierarchy level is read here. *)
Record GraphId := { level : Z }.

(** [DirectedEdge], reduced to the accessors [AutoCost] calls.  [length]
    is the value of [edge->length()] as the [float] operand of the
    product in [Get] (an integral length is converted to [float] by the
    usual arithmetic conversions); [speed] is in 0..255 and
    [localedgeidx] in 0..31. *)
Record DirectedEdge := {
  endnode       : GraphId;
  length        : spec_float;
  speed         : Z;
  localedgeidx  : Z;
  shortcut      : bool;
  not_thru      : bool;
  trans_up      : bool;
  trans_down    : bool;
  forwardaccess : Z
}.

Record NodeInfo := { access : Z }.

(** The same edge with another [shortcut] flag. *)
Definition with_shortcut (b : bool) (e : DirectedEdge) : DirectedEdge :=
  {| endnode := endnode e; length := length e; speed := speed e;
     localedgeidx := localedgeidx e; shortcut := b;
     not_thru := not_thru e; trans_up := trans_up e;
     trans_down := trans_down e; forwardaccess := forwardaccess e |}.

(** The same edge with another forward access mask. *)
Definition with_forwardaccess (a : Z) (e : DirectedEdge) : DirectedEdge :=
  {| endnode := endnode e; length := length e; speed := speed e;
     localedgeidx := localedgeidx e; shortcut := shortcut e;
     not_thru := not_thru e; trans_up := trans_up e;
     trans_down := trans_down e; forwardaccess := a |}.

End baldr.

(** ** The costing ([valhalla::thor]) *)

Module thor.
Import baldr.

(** Modelled from the spec: [kSecPerHour] of [midgard/constants.h], which is
    not among the sources; the spec gives 3600, the seconds per hour.  It
    is a [float], as are the other operands of the table entries. *)
Definition kSecPerHour : spec_float := F32.of_Z 3600.

(** The object state: [float speedfactor_[256]].  An element that was never
    written holds [None]. *)
Record AutoCost := { speedfactor_ : list (option spec_float) }.

(** [for (s = lo; s < hi; s++) body], threading the state. *)
Definition for_range {S : Type} (lo hi : Z) (body : Z -> S -> S) (init : S) : S :=
  foldl (fun st s => body s st) init (seqZ lo (hi - lo)).

(** The body of the constructor's loop. *)
Definition speedfactor_entry (s : Z) : spec_float :=
  F32.div (F32.mul kSecPerHour F32.lit_0_001) (F32.of_Z s).

(** [AutoCost::AutoCost()]. *)
Definition AutoCost_ctor : AutoCost :=
  let fresh := replicate 256 None in
  let t0 := <[ 0%nat := Some kSecPerHour ]> fresh in
  {| speedfactor_ :=
       for_range 1 255
         (fun s t => <[ Z.to_nat s := Some (speedfactor_entry s) ]> t) t0 |}.

(** [CreateAutoCost()]. *)
Definition CreateAutoCost : AutoCost := AutoCost_ctor.

(** Reading [speedfactor_[i]]: [None] when the element was never written
    (or lies outside the array). *)
Definition read_speedfactor (c : AutoCost) (i : Z) : option spec_float :=
  if i <? 0 then None
  else match speedfactor_ c !! Z.to_nat i with
       | Some (Some f) => Some f
       | _ => None
       end.

(** The diagnostic of [Get]; [logging] tells whether [LOGGING_LEVEL_WARN]
    is defined.  It carries the speed that is printed. *)
Inductive LogEntry := LOG_WARN (speed : Z).

Definition Get_log (logging : bool) (edge : DirectedEdge) : list LogEntry :=
  if logging && (150 <? speed edge) then [LOG_WARN (speed edge)] else [].

(** [AutoCost::Get(edge)]: the log it writes and the value it returns. *)
Definition Get (logging : bool) (c : AutoCost) (edge : DirectedEdge)
  : list LogEntry * option spec_float :=
  (Get_log logging edge,
   f ← read_speedfactor c (speed edge); Some (F32.mul (length edge) f)).

(** [AutoCost::Seconds(edge)]. *)
Definition Seconds (c : AutoCost) (edge : DirectedEdge) : option spec_float :=
  f ← read_speedfactor c (speed edge); Some (F32.mul (length edge) f).

(** [AutoCost::AStarCostFactor()]. *)
Definition AStarCostFactor (c : AutoCost) : option spec_float :=
  read_speedfactor c 120.

(** [AutoCost::UnitSize()]. *)
Definition UnitSize : spec_float := F32.of_Z 1.

(** The restriction test [restriction & (1 << edge->localedgeidx())]. *)
Definition restricted (restriction : Z) (edge : DirectedEdge) : bool :=
  to_bool (Z.land restriction (to_uint32 (Z.shiftl 1 (localedgeidx edge)))).

Section Access.

(** [kAutoAccess] of [baldr/graphconstants.h], which is not among the
    sources: the access bit of the automobile mode.  It stays a parameter
    of everything that reads it. *)
Variable kAutoAccess : Z.

(** [AutoCost::Allowed(edge, restriction, uturn, dist2dest)]. *)
Definition Allowed (edge : DirectedEdge) (restriction : Z) (uturn : bool)
    (dist2dest : spec_float) : bool :=
  if restricted restriction edge then false
  else if trans_up edge then
    if level (endnode edge) =? 0
    then F32.gtb dist2dest (F32.of_Z 50000)
    else F32.gtb dist2dest (F32.of_Z 10000)
  else if trans_down edge then
    if level (endnode edge) =? 1
    then F32.ltb dist2dest (F32.of_Z 50000)
    else F32.ltb dist2dest (F32.of_Z 10000)
  else if shortcut edge && F32.ltb dist2dest (F32.of_Z 10000) then false
  else if uturn
          || (not_thru edge
              && F64.gtb (F64.of_float dist2dest) (F64.of_Z 5000))
  then false
  else to_bool (Z.land (forwardaccess edge) kAutoAccess).

(** [AutoCost::Allowed(node)]. *)
Definition Allowed_node (node : NodeInfo) : bool :=
  to_bool (Z.land (access node) kAutoAccess).

(** The predicate returned by [AutoCost::GetFilter()]. *)
Definition GetFilter (edge : DirectedEdge) : bool :=
  trans_up edge || trans_down edge
  || negb (to_bool (Z.land (forwardaccess edge) kAutoAccess)).

End Access.

(** The distance test of the transition rule that decides [edge]: the
    upward rule when [trans_up] is set, the downward rule otherwise. *)
Definition transition_threshold (edge : DirectedEdge) (dist2dest : spec_float)
  : bool :=
  if trans_up edge then
    if level (endnode edge) =? 0
    then F32.gtb dist2dest (F32.of_Z 50000)
    else F32.gtb dist2dest (F32.of_Z 10000)
  else
    if level (endnode edge) =? 1
    then F32.ltb dist2dest (F32.of_Z 50000)
    else F32.ltb dist2dest (F32.of_Z 10000).

(** The no-thru test of [Allowed]. *)
Definition not_thru_rule (edge : DirectedEdge) (dist2dest : spec_float) : bool :=
  not_thru edge && F64.gtb (F64.of_float dist2dest) (F64.of_Z 5000).

(** *** Sample edges *)

(** An ordinary local road: 1000 m at 60 km/h, open to every mode. *)
Definition local_road : DirectedEdge :=
  {| endnode := {| level := 2 |}; length := F32.of_Z 1000; speed := 60;
     localedgeidx := 3; shortcut := false; not_thru := false;
     trans_up := false; trans_down := false; forwardaccess := 255 |}.

(** A transition up to the top level, closed to every mode. *)
Definition ramp_up : DirectedEdge :=
  {| endnode := {| level := 0 |}; length := F32.of_Z 0; speed := 0;
     localedgeidx := 1; shortcut := false; not_thru := false;
     trans_up := true; trans_down := false; forwardaccess := 0 |}.

(** A shortcut across the arterial level. *)
Definition bypass : DirectedEdge :=
  {| endnode := {| level := 1 |}; length := F32.of_Z 25000; speed := 90;
     localedgeidx := 0; shortcut := true; not_thru := false;
     trans_up := false; trans_down := false; forwardaccess := 1 |}.

(** A road whose speed attribute holds the largest value of its 8 bits. *)
Definition unlimited_road : DirectedEdge :=
  {| endnode := {| level := 0 |}; length := F32.of_Z 1000; speed := 255;
     localedgeidx := 0; shortcut := false; not_thru := false;
     trans_up := false; trans_down := false; forwardaccess := 1 |}.

(** An edge of the given length and speed, open to automobiles. *)
Definition road (len : Z) (kph : Z) : DirectedEdge :=
  {| endnode := {| level := 2 |}; length := F32.of_Z len; speed := kph;
     localedgeidx := 0; shortcut := false; not_thru := false;
     trans_up := false; trans_down := false; forwardaccess := 1 |}.

(** *** Checks over the speed table *)

(** Two consecutive entries, both written, the first one the larger. *)
Definition decreasing_at (c : AutoCost) (s : Z) : bool :=
  match read_speedfactor c (s - 1), read_speedfactor c s with
  | Some a, Some b => F32.gtb a b && F32.leb b a
  | _, _ => false
  end.


(** *** Paths and the A* heuristic *)

(** A length in metres: zero, or a positive binary32 number from 1 on. *)
Definition metres (l : spec_float) : bool :=
  match l with
  | S754_zero _ => true
  | S754_finite false _ _ => F32.valid l && F32.leb (F32.of_Z 1) l
  | _ => false
  end.






(** The heuristic of a search: factor times distance, in [float]. *)
Definition heuristic_f32 (c : AutoCost) (distance : spec_float)
  : option spec_float :=
  h ← AStarCostFactor c; Some (F32.mul h distance).


(** *** Further sample edges *)

(** A transition down to the arterial level, closed to every mode. *)
Definition ramp_down : DirectedEdge :=
  {| endnode := {| level := 1 |}; length := F32.of_Z 0; speed := 0;
     localedgeidx := 2; shortcut := false; not_thru := false;
     trans_up := false; trans_down := true; forwardaccess := 0 |}.

(** A short residential dead end. *)
Definition cul_de_sac : DirectedEdge :=
  {| endnode := {| level := 2 |}; length := F32.of_Z 150; speed := 30;
     localedgeidx := 4; shortcut := false; not_thru := true;
     trans_up := false; trans_down := false; forwardaccess := 1 |}.

(** A shortcut that ends in a no-thru region. *)
Definition dead_end_shortcut : DirectedEdge :=
  {| endnode := {| level := 1 |}; length := F32.of_Z 12000; speed := 80;
     localedgeidx := 5; shortcut := true; not_thru := true;
     trans_up := false; trans_down := false; forwardaccess := 1 |}.

(** A node with the given access mask. *)
Definition node_with (mask : Z) : NodeInfo := {| access := mask |}.

(** *** The table as a function of the speed *)

(** What the constructor stores at index [s] of 0..254: line 103 for
    [s = 0], the loop body otherwise. *)
Definition speedfactor_at (s : Z) : spec_float :=
  if s =? 0 then kSecPerHour else speedfactor_entry s.

(** The product [Get] rounds, for every written speed. *)
Definition exact_cost (e : DirectedEdge) : Q :=
  (SF2Q (length e) * SF2Q (speedfactor_at (speed e)))%Q.

(** The entry of speed [s] is a positive normal number with an exponent in
    -30..-12, valid in binary32, and below [kSecPerHour] unless [s = 0]. *)
Definition entry_normal (s : Z) : bool :=
  match speedfactor_at s with
  | S754_finite false m e =>
      (Zpos (digits2_pos m) =? 24) && (-30 <=? e) && (e <=? -12)
      && F32.valid (S754_finite false m e)
      && (F32.ltb (S754_finite false m e) kSecPerHour || (s =? 0))
  | _ => false
  end.

(** The entry of [s'] lies below the entry of [s] by more than the two
    roundings of a product can bridge. *)
Definition entry_gap (s s' : Z) : bool :=
  negb (Qle_bool ((1 - (1 # 8388608)) * SF2Q (speedfactor_at s))
                 ((1 + (1 # 8388608)) * SF2Q (speedfactor_at s'))).

Definition entry_gaps (s : Z) : bool :=
  forallb (entry_gap s) (seqZ (s + 1) (254 - s)).

(** ** The arithmetic model on known values *)

(** [0.001f] has the bit pattern 0x3A83126F: mantissa 0x83126F, exponent
    field 117. *)
Example lit_0_001_bits : F32.lit_0_001 = S754_finite false 0x83126F (117 - 150).
Proof. reflexivity. Qed.

(** [kSecPerHour * 0.001f] is 3.6000001430511475, and the entry of speed
    120 is 0.030000001192092896. *)
Example speedfactor_entry_120 :
  F32.mul kSecPerHour F32.lit_0_001 = S754_finite false 15099495 (-22) /\
  speedfactor_entry 120 = S754_finite false 16106128 (-29).
Proof. split; reflexivity. Qed.

(** Promotion to [double] keeps the order against [5000.0]. *)
Example promoted_comparisons :
  F64.gtb (F64.of_float (F32.of_Z 5000)) (F64.of_Z 5000) = false /\
  F64.gtb (F64.of_float (F32.of_Z 5001)) (F64.of_Z 5000) = true /\
  F64.gtb (F64.of_float (S754_infinity false)) (F64.of_Z 5000) = true /\
  F64.gtb (F64.of_float S754_nan) (F64.of_Z 5000) = false.
Proof. repeat split; reflexivity. Qed.

(** ** Facts about [Allowed] *)

Lemma land_pow2 (r i : Z) :
  0 <= i -> Z.land r (2 ^ i) = if Z.testbit r i then 2 ^ i else 0.
Proof.
  intros Hi. apply Z.bits_inj'. intros n Hn.
  rewrite Z.land_spec, Z.pow2_bits_eqb by lia.
  destruct (Z.eqb_spec i n) as [->|Hne].
  - destruct (Z.testbit r n); simpl;
      [ rewrite Z.pow2_bits_true by lia | rewrite Z.bits_0 ]; reflexivity.
  - rewrite andb_false_r.
    destruct (Z.testbit r i);
      [ rewrite Z.pow2_bits_false by lia | rewrite Z.bits_0 ]; reflexivity.
Qed.

(** Inside the range of [localedgeidx] the test reads one bit of the mask. *)
Lemma restricted_testbit r e :
  0 <= localedgeidx e < 32 -> restricted r e = Z.testbit r (localedgeidx e).
Proof.
  intros H. unfold restricted, to_uint32, to_bool.
  rewrite Z.shiftl_1_l, Z.mod_small.
  2:{ split; [ apply Z.pow_nonneg; lia | apply Z.pow_lt_mono_r; lia ]. }
  rewrite land_pow2 by lia.
  destruct (Z.testbit r (localedgeidx e)); [|reflexivity].
  assert (0 < 2 ^ localedgeidx e) by (apply Z.pow_pos_nonneg; lia).
  destruct (Z.eqb_spec (2 ^ localedgeidx e) 0); [lia|reflexivity].
Qed.

(** A clear bit never restricts, whatever the index. *)
Lemma restricted_clear r e :
  Z.testbit r (localedgeidx e) = false -> restricted r e = false.
Proof.
  intros H.
  destruct (Z_lt_le_dec (localedgeidx e) 0) as [Hneg|Hpos].
  - unfold restricted, to_uint32, to_bool.
    rewrite Z.shiftl_1_l, Z.pow_neg_r by lia.
    rewrite Z.mod_0_l by lia. now rewrite Z.land_0_r.
  - destruct (Z_lt_le_dec (localedgeidx e) 32) as [Hlt|Hge].
    + rewrite restricted_testbit by lia. exact H.
    + unfold restricted, to_uint32, to_bool.
      rewrite Z.shiftl_1_l.
      replace (localedgeidx e) with (32 + (localedgeidx e - 32)) by lia.
      rewrite Z.pow_add_r by lia.
      rewrite Z.mul_comm, Z.mod_mul by lia. now rewrite Z.land_0_r.
Qed.

(** Swapping the operands of a comparison mirrors its result. *)
Lemma SFcompare_swap x y :
  SFcompare y x = option_map CompOpp (SFcompare x y).
Proof.
  destruct x as [sx|sx| |sx mx ex], y as [sy|sy| |sy my ey]; simpl;
    try reflexivity; try (destruct sx; reflexivity);
    try (destruct sy; reflexivity); try (destruct sx, sy; reflexivity).
  rewrite (Z.compare_antisym ex ey).
  change (Pos.compare_cont Eq my mx) with (Pos.compare_cont (CompOpp Eq) my mx).
  rewrite <- (Pos.compare_cont_antisym mx my Eq).
  destruct sx, sy; simpl; try reflexivity;
    destruct (ex ?= ey); simpl; try reflexivity;
    now rewrite ?CompOpp_involutive.
Qed.

Lemma leb_not_ltb x y : F32.leb x y = true -> F32.ltb y x = false.
Proof.
  unfold F32.leb, F32.ltb, SFleb, SFltb. rewrite (SFcompare_swap x y).
  destruct (SFcompare x y) as [[]|]; simpl; congruence.
Qed.

(** C3: when bit [localedgeidx] of the restriction mask is set, [Allowed]
    returns false for every edge, u-turn flag and distance, whatever the
    other attributes (access mask included) say: the restriction test is
    the first one and decides alone. *)
Theorem Allowed_restricted (kAutoAccess : Z) (e : DirectedEdge) (r : Z)
    (u : bool) (d : spec_float) :
  0 <= localedgeidx e < 32 ->
  Z.testbit r (localedgeidx e) = true ->
  Allowed kAutoAccess e r u d = false.
Proof.
  intros Hidx Hbit. unfold Allowed.
  now rewrite restricted_testbit, Hbit.
Qed.

Lemma Allowed_restricted_witness :
  0 <= localedgeidx local_road < 32 /\
  Z.testbit 8 (localedgeidx local_road) = true /\
  Allowed 1 local_road 0 false (F32.of_Z 1000) = true /\
  Allowed 1 local_road 8 false (F32.of_Z 1000) = false.
Proof.
  split; [ simpl; lia | ].
  split; [ reflexivity | ].
  split; [ reflexivity | ].
  apply (Allowed_restricted 1 local_road 8 false (F32.of_Z 1000));
    [ simpl; lia | reflexivity ].
Defined.

(** C1, as stated, fails: a transition edge is decided by its distance
    rule before the u-turn flag is looked at.  The upward transition
    [ramp_up], 60000 m from the destination, is allowed on a u-turn. *)
Lemma Allowed_uturn_transition :
  trans_up ramp_up = true /\
  Allowed 1 ramp_up 0 true (F32.of_Z 60000) = true.
Proof. split; reflexivity. Qed.

(** C1, amended: for every edge that is neither an upward nor a downward
    transition, [Allowed] with the u-turn flag set returns false, whatever
    the mask, the distance and the other attributes are. *)
Theorem Allowed_uturn (kAutoAccess : Z) (e : DirectedEdge) (r : Z)
    (d : spec_float) :
  trans_up e = false ->
  trans_down e = false ->
  Allowed kAutoAccess e r true d = false.
Proof.
  intros Hup Hdown. unfold Allowed. rewrite Hup, Hdown.
  destruct (restricted r e); [reflexivity|].
  destruct (shortcut e && F32.ltb d (F32.of_Z 10000)); reflexivity.
Qed.

Lemma Allowed_uturn_witness :
  trans_up local_road = false /\
  trans_down local_road = false /\
  Allowed 1 local_road 0 false (F32.of_Z 1000) = true /\
  Allowed 1 local_road 0 true (F32.of_Z 1000) = false.
Proof.
  split; [ reflexivity | ].
  split; [ reflexivity | ].
  split; [ reflexivity | ].
  apply (Allowed_uturn 1 local_road 0 (F32.of_Z 1000)); reflexivity.
Defined.

(** C4: for an upward transition whose restriction bit is clear, [Allowed]
    returns true exactly when the distance exceeds 50000 if the end node is
    on level 0, and exactly when it exceeds 10000 on any other level.  On
    level 0 the edge is allowed at 60000 and denied at 40000. *)
Theorem Allowed_trans_up (kAutoAccess : Z) (e : DirectedEdge) (r : Z)
    (u : bool) (d : spec_float) :
  trans_up e = true ->
  Z.testbit r (localedgeidx e) = false ->
  (level (endnode e) = 0 ->
     (Allowed kAutoAccess e r u d = true <->
      F32.gtb d (F32.of_Z 50000) = true)) /\
  (level (endnode e) <> 0 ->
     (Allowed kAutoAccess e r u d = true <->
      F32.gtb d (F32.of_Z 10000) = true)) /\
  (level (endnode e) = 0 ->
     Allowed kAutoAccess e r u (F32.of_Z 60000) = true /\
     Allowed kAutoAccess e r u (F32.of_Z 40000) = false).
Proof.
  intros Hup Hbit.
  assert (Hdef : forall x, Allowed kAutoAccess e r u x =
            if level (endnode e) =? 0
            then F32.gtb x (F32.of_Z 50000) else F32.gtb x (F32.of_Z 10000)).
  { intros x. unfold Allowed. now rewrite (restricted_clear r e Hbit), Hup. }
  repeat split; intros; rewrite ?Hdef in *.
  - destruct (Z.eqb_spec (level (endnode e)) 0); [assumption|contradiction].
  - destruct (Z.eqb_spec (level (endnode e)) 0); [assumption|contradiction].
  - destruct (Z.eqb_spec (level (endnode e)) 0); [contradiction|assumption].
  - destruct (Z.eqb_spec (level (endnode e)) 0); [contradiction|assumption].
  - destruct (Z.eqb_spec (level (endnode e)) 0); [reflexivity|contradiction].
  - destruct (Z.eqb_spec (level (endnode e)) 0); [reflexivity|contradiction].
Qed.

Lemma Allowed_trans_up_witness :
  trans_up ramp_up = true /\
  Z.testbit 0 (localedgeidx ramp_up) = false /\
  Allowed 1 ramp_up 0 false (F32.of_Z 60000) = true /\
  Allowed 1 ramp_up 0 false (F32.of_Z 40000) = false.
Proof.
  split; [ reflexivity | ].
  split; [ reflexivity | ].
  destruct (Allowed_trans_up 1 ramp_up 0 false (F32.of_Z 0))
    as (_ & _ & H); [ reflexivity | reflexivity | ].
  exact (H eq_refl).
Defined.

(** C5: for a shortcut that is no transition and is not turn-restricted,
    [Allowed] returns false when the distance is below 10000.  From 10000
    on the shortcut flag has no say: the result is the one of the same
    edge without the flag, and it is true as soon as the move is no
    u-turn, the no-thru test does not fire and the forward access mask
    holds the automobile bit.  So the shortcut is denied at 5000 and,
    the other tests passing, allowed at 20000. *)
Theorem Allowed_shortcut (kAutoAccess : Z) (e : DirectedEdge) (r : Z)
    (u : bool) (d : spec_float) :
  shortcut e = true ->
  trans_up e = false ->
  trans_down e = false ->
  Z.testbit r (localedgeidx e) = false ->
  (F32.ltb d (F32.of_Z 10000) = true ->
     Allowed kAutoAccess e r u d = false) /\
  (F32.leb (F32.of_Z 10000) d = true ->
     Allowed kAutoAccess e r u d
       = Allowed kAutoAccess (with_shortcut false e) r u d /\
     (u = false ->
      not_thru_rule e d = false ->
      to_bool (Z.land (forwardaccess e) kAutoAccess) = true ->
      Allowed kAutoAccess e r u d = true)) /\
  Allowed kAutoAccess e r u (F32.of_Z 5000) = false /\
  (u = false ->
   not_thru e = false ->
   to_bool (Z.land (forwardaccess e) kAutoAccess) = true ->
   Allowed kAutoAccess e r u (F32.of_Z 20000) = true).
Proof.
  intros Hsc Hup Hdown Hbit.
  pose proof (restricted_clear r e Hbit) as Hr.
  assert (Hr' : restricted r (with_shortcut false e) = false) by exact Hr.
  split; [| split; [| split]].
  - intros Hnear. unfold Allowed.
    now rewrite Hr, Hup, Hdown, Hsc, Hnear.
  - intros Hfar. apply leb_not_ltb in Hfar. split.
    + unfold Allowed. rewrite Hr, Hr'.
      cbn [with_shortcut trans_up trans_down shortcut endnode not_thru
           forwardaccess].
      now rewrite Hup, Hdown, Hsc, Hfar.
    + intros -> Hnt Hacc. unfold Allowed.
      rewrite Hr, Hup, Hdown, Hsc, Hfar.
      fold (not_thru_rule e d). now rewrite Hnt.
  - unfold Allowed. now rewrite Hr, Hup, Hdown, Hsc.
  - intros -> Hnt Hacc. unfold Allowed.
    now rewrite Hr, Hup, Hdown, Hsc, Hnt.
Qed.

Lemma Allowed_shortcut_witness :
  shortcut bypass = true /\
  trans_up bypass = false /\
  trans_down bypass = false /\
  Z.testbit 6 (localedgeidx bypass) = false /\
  Allowed 1 bypass 6 false (F32.of_Z 5000) = false /\
  Allowed 1 bypass 6 false (F32.of_Z 20000) = true.
Proof.
  do 4 (split; [ reflexivity | ]).
  destruct (Allowed_shortcut 1 bypass 6 false (F32.of_Z 20000))
    as (_ & _ & Hnear & Hfar); try reflexivity.
  split; [ exact Hnear | apply Hfar; reflexivity ].
Defined.

(** C10: a hierarchy transition (upward or downward) whose restriction bit
    is clear and whose distance test passes is allowed whatever its
    forward access mask holds, the automobile bit or not: the transition
    rules return before the access mask is read. *)
Theorem Allowed_transition_skips_access (kAutoAccess : Z) (e : DirectedEdge)
    (r : Z) (u : bool) (d : spec_float) :
  trans_up e || trans_down e = true ->
  Z.testbit r (localedgeidx e) = false ->
  transition_threshold e d = true ->
  Allowed kAutoAccess e r u d = true /\
  forall a : Z, Allowed kAutoAccess (with_forwardaccess a e) r u d = true.
Proof.
  intros Htr Hbit Hth.
  pose proof (restricted_clear r e Hbit) as Hr.
  assert (H : forall a, Allowed kAutoAccess (with_forwardaccess a e) r u d = true).
  { intros a. unfold Allowed.
    change (restricted r (with_forwardaccess a e)) with (restricted r e).
    rewrite Hr. cbn [with_forwardaccess trans_up trans_down endnode].
    unfold transition_threshold in Hth.
    destruct (trans_up e) eqn:Hup; [ exact Hth | ].
    destruct (trans_down e) eqn:Hdown; [ exact Hth | discriminate ]. }
  split; [ | exact H ].
  specialize (H (forwardaccess e)).
  now destruct e.
Qed.

Lemma Allowed_transition_skips_access_witness :
  trans_up ramp_up || trans_down ramp_up = true /\
  Z.testbit 0 (localedgeidx ramp_up) = false /\
  transition_threshold ramp_up (F32.of_Z 60000) = true /\
  to_bool (Z.land (forwardaccess ramp_up) 1) = false /\
  Allowed 1 ramp_up 0 false (F32.of_Z 60000) = true.
Proof.
  do 4 (split; [ reflexivity | ]).
  apply (Allowed_transition_skips_access 1 ramp_up 0 false (F32.of_Z 60000));
    reflexivity.
Defined.

(** ** Facts about the speed table *)

Section Fill.
Context {A : Type} (f : Z -> A).

Local Abbreviation fill lo hi t :=
  (for_range lo hi (fun s t' => <[ Z.to_nat s := Some (f s) ]> t') t).

Lemma fill_step lo hi (t : list (option A)) :
  lo < hi ->
  fill lo hi t = fill (lo + 1) hi (<[ Z.to_nat lo := Some (f lo) ]> t).
Proof.
  intros H. unfold for_range.
  rewrite (seqZ_cons lo) by lia. simpl.
  now replace (Z.pred (hi - lo)) with (hi - (lo + 1)) by lia.
Qed.

Lemma fill_done lo hi (t : list (option A)) : hi <= lo -> fill lo hi t = t.
Proof. intros H. unfold for_range. now rewrite seqZ_nil by lia. Qed.

(** The loop leaves every element outside [lo, hi) as it was. *)
Lemma fill_lookup_out lo hi (t : list (option A)) (i : nat) :
  0 <= lo -> (Z.of_nat i < lo \/ hi <= Z.of_nat i) ->
  fill lo hi t !! i = t !! i.
Proof.
  remember (Z.to_nat (hi - lo)) as n eqn:Hn.
  revert lo t Hn. induction n as [|n IH]; intros lo t Hn Hlo Hi.
  - now rewrite fill_done by lia.
  - rewrite fill_step by lia. rewrite IH by lia.
    apply list_lookup_insert_ne. lia.
Qed.

(** The loop writes [f s] at every index [s] of [lo, hi) inside the array. *)
Lemma fill_lookup_in lo hi (t : list (option A)) (s : Z) :
  0 <= lo -> lo <= s < hi -> (Z.to_nat s < List.length t)%nat ->
  fill lo hi t !! Z.to_nat s = Some (Some (f s)).
Proof.
  remember (Z.to_nat (hi - lo)) as n eqn:Hn.
  revert lo t Hn. induction n as [|n IH]; intros lo t Hn Hlo Hs Hlen.
  - lia.
  - rewrite fill_step by lia.
    destruct (Z.eq_dec s lo) as [->|Hne].
    + rewrite fill_lookup_out by lia. now apply list_lookup_insert_eq.
    + apply IH; try lia. now rewrite length_insert.
Qed.
End Fill.

(** What the constructor leaves in the table. *)
Lemma read_speedfactor_loop s :
  1 <= s < 255 ->
  read_speedfactor AutoCost_ctor s = Some (speedfactor_entry s).
Proof.
  intros Hs. unfold read_speedfactor, AutoCost_ctor. cbn [speedfactor_].
  destruct (Z.ltb_spec s 0); [lia|].
  rewrite (fill_lookup_in speedfactor_entry); [ reflexivity | lia | lia | ].
  rewrite length_insert, length_replicate. lia.
Qed.

Lemma read_speedfactor_0 : read_speedfactor AutoCost_ctor 0 = Some kSecPerHour.
Proof.
  unfold read_speedfactor, AutoCost_ctor. cbn [speedfactor_ Z.ltb Z.compare].
  change (Z.to_nat 0) with 0%nat.
  rewrite (fill_lookup_out speedfactor_entry) by lia. reflexivity.
Qed.

Lemma read_speedfactor_255 : read_speedfactor AutoCost_ctor 255 = None.
Proof.
  unfold read_speedfactor, AutoCost_ctor. cbn [speedfactor_ Z.ltb Z.compare].
  rewrite (fill_lookup_out speedfactor_entry) by lia. reflexivity.
Qed.

(** A check that holds on a whole range holds at each of its indices. *)
Lemma forallb_seqZ (P : Z -> bool) (lo n : Z) :
  forallb P (seqZ lo n) = true -> forall s, lo <= s < lo + n -> P s = true.
Proof.
  intros H s Hs. rewrite forallb_forall in H. apply H.
  apply list_elem_of_In, elem_of_seqZ. exact Hs.
Qed.

(** C2 does not hold of the code: the constructor's loop stops at
    [s < 255], so element 255 of the 256-element table is never written,
    and [Get] (like [Seconds]) on an edge of speed 255 reads it. *)
Theorem Get_reads_unwritten_entry (logging : bool) (e : DirectedEdge) :
  speed e = 255 ->
  read_speedfactor CreateAutoCost 255 = None /\
  snd (Get logging CreateAutoCost e) = None /\
  Seconds CreateAutoCost e = None.
Proof.
  intros H. unfold Get, Seconds, CreateAutoCost. cbn [snd].
  now rewrite H, read_speedfactor_255.
Qed.

Lemma Get_reads_unwritten_entry_witness :
  speed unlimited_road = 255 /\
  snd (Get true CreateAutoCost unlimited_road) = None.
Proof.
  split; [ reflexivity | ].
  apply (Get_reads_unwritten_entry true unlimited_road). reflexivity.
Defined.

(** C7: the table is strictly decreasing over 1..254: for every [s] in
    2..254 both [table[s-1]] and [table[s]] are written and
    [table[s-1] > table[s]] (so also [table[s] <= table[s-1]]). *)
Theorem speedfactor_decreasing (s : Z) :
  2 <= s <= 254 ->
  exists a b,
    read_speedfactor CreateAutoCost (s - 1) = Some a /\
    read_speedfactor CreateAutoCost s = Some b /\
    F32.gtb a b = true /\
    F32.leb b a = true.
Proof.
  intros Hs.
  assert (Hall : forallb (decreasing_at CreateAutoCost) (seqZ 2 253) = true)
    by (vm_compute; reflexivity).
  pose proof (forallb_seqZ _ _ _ Hall s ltac:(lia)) as H.
  unfold decreasing_at in H.
  destruct (read_speedfactor CreateAutoCost (s - 1)) as [a|]; [|discriminate].
  destruct (read_speedfactor CreateAutoCost s) as [b|]; [|discriminate].
  apply andb_true_iff in H. exists a, b. tauto.
Qed.

Lemma speedfactor_decreasing_witness :
  2 <= 120 <= 254 /\
  exists a b,
    read_speedfactor CreateAutoCost (120 - 1) = Some a /\
    read_speedfactor CreateAutoCost 120 = Some b /\
    F32.gtb a b = true /\
    F32.leb b a = true.
Proof.
  split; [ lia | ].
  apply (speedfactor_decreasing 120). lia.
Defined.

(** C9: on every edge [Get] and [Seconds] return the same value, the
    length times the table entry of the edge's speed. *)
Theorem Get_Seconds (logging : bool) (c : AutoCost) (e : DirectedEdge) :
  snd (Get logging c e) = Seconds c e /\
  Seconds c e
  = option_map (F32.mul (length e)) (read_speedfactor c (speed e)).
Proof.
  split; [ reflexivity | ].
  unfold Seconds. now destruct (read_speedfactor c (speed e)).
Qed.

(** ** Rounding of a product *)

(** A number of [d] binary digits lies in [2^(d-1), 2^d). *)
Lemma digits2_pos_bounds (p : positive) :
  2 ^ (Zpos (digits2_pos p) - 1) <= Zpos p < 2 ^ Zpos (digits2_pos p).
Proof.
  induction p as [p IH|p IH|]; cbn [digits2_pos].
  - rewrite Pos2Z.inj_succ, Z.pow_succ_r by lia.
    replace (Z.succ (Z.pos (digits2_pos p)) - 1)
      with (Z.succ (Z.pos (digits2_pos p) - 1)) by lia.
    rewrite Z.pow_succ_r by lia. lia.
  - rewrite Pos2Z.inj_succ, Z.pow_succ_r by lia.
    replace (Z.succ (Z.pos (digits2_pos p)) - 1)
      with (Z.succ (Z.pos (digits2_pos p) - 1)) by lia.
    rewrite Z.pow_succ_r by lia. lia.
  - cbn. lia.
Qed.

(** ... and the interval fixes the number of digits. *)
Lemma digits2_pos_unique (p : positive) (k : Z) :
  2 ^ (k - 1) <= Zpos p < 2 ^ k -> Zpos (digits2_pos p) = k.
Proof.
  intros [Hlo Hhi]. pose proof (digits2_pos_bounds p) as [Dlo Dhi].
  assert (Hk : 0 < k).
  { destruct (Z_lt_le_dec 0 k); [assumption|].
    destruct (Z.eq_dec k 0) as [->|]; [ cbn in Hhi; lia | ].
    rewrite Z.pow_neg_r in Hhi by lia. lia. }
  destruct (Z.lt_total (Zpos (digits2_pos p)) k) as [H|[H|H]]; [|exact H|].
  - assert (2 ^ Zpos (digits2_pos p) <= 2 ^ (k - 1))
      by (apply Z.pow_le_mono_r; lia). lia.
  - assert (2 ^ k <= 2 ^ (Zpos (digits2_pos p) - 1))
      by (apply Z.pow_le_mono_r; lia). lia.
Qed.

(** One shift to the right halves the mantissa. *)
Lemma shr_1_m (mrs : shr_record) :
  0 <= shr_m mrs -> shr_m (shr_1 mrs) = shr_m mrs / 2.
Proof.
  destruct mrs as [m r s]. cbn [shr_m]. intros Hm.
  rewrite <- Z.div2_div.
  destruct m as [|[p|p|]|p]; try reflexivity. lia.
Qed.

(** [p] shifts divide it by [2^p], rounding down. *)
Lemma iter_shr_1_m (p : positive) (mrs : shr_record) :
  0 <= shr_m mrs ->
  shr_m (SpecFloat.iter_pos shr_1 p mrs) = shr_m mrs / 2 ^ Zpos p.
Proof.
  revert mrs. induction p as [p IH|p IH|]; intros mrs Hm;
    cbn [SpecFloat.iter_pos].
  - assert (Hpow : 0 < 2 ^ Zpos p) by (apply Z.pow_pos_nonneg; lia).
    assert (H1 : 0 <= shr_m (shr_1 mrs))
      by (rewrite shr_1_m by lia; apply Z.div_pos; lia).
    assert (H2 : 0 <= shr_m (SpecFloat.iter_pos shr_1 p (shr_1 mrs)))
      by (rewrite IH by lia; apply Z.div_pos; lia).
    rewrite IH, IH, shr_1_m by lia.
    rewrite !Z.div_div by lia.
    f_equal.
    replace (Zpos p~1) with (1 + Zpos p + Zpos p) by lia.
    rewrite !Z.pow_add_r by lia. lia.
  - assert (Hpow : 0 < 2 ^ Zpos p) by (apply Z.pow_pos_nonneg; lia).
    assert (H2 : 0 <= shr_m (SpecFloat.iter_pos shr_1 p mrs))
      by (rewrite IH by lia; apply Z.div_pos; lia).
    rewrite IH, IH by lia.
    rewrite Z.div_div by lia.
    f_equal.
    replace (Zpos p~0) with (Zpos p + Zpos p) by lia.
    now rewrite Z.pow_add_r by lia.
  - now rewrite shr_1_m.
Qed.

(** Rounding to nearest keeps the truncated mantissa or adds one. *)
Lemma round_nearest_even_bounds (q : Z) (l : location) :
  q <= round_nearest_even q l <= q + 1.
Proof.
  destruct l as [|[]]; cbn [round_nearest_even]; try lia.
  destruct (Z.even q); lia.
Qed.


(** Powers of two as rationals. *)
Lemma Qpower2_pos (e : Z) : (0 < 2 ^ e)%Q.
Proof. apply Qpower_0_lt. reflexivity. Qed.

Lemma Qpower2_shift (e k : Z) :
  0 <= k -> (2 ^ (e + k) == inject_Z (2 ^ k) * 2 ^ e)%Q.
Proof.
  intros Hk. rewrite Qpower_plus by discriminate.
  rewrite (Zpower_Qpower 2 k Hk). apply Qmult_comm.
Qed.



(** ** The heuristic factor *)


(** A non-zero length in metres is a normal number with exponent from -23
    on. *)
Lemma metres_finite (m : positive) (e : Z) :
  metres (S754_finite false m e) = true ->
  Zpos (digits2_pos m) = 24 /\ -23 <= e.
Proof.
  unfold metres, F32.valid, F32.leb. intros H.
  apply andb_true_iff in H as [Hv Hle].
  assert (He : -23 <= e).
  { unfold SFleb in Hle. change (F32.of_Z 1) with (S754_finite false 8388608 (-23)) in Hle.
    cbn [SFcompare] in Hle.
    destruct (Z.compare_spec (-23) e); [lia | lia | discriminate Hle]. }
  split; [|exact He].
  cbn [valid_binary] in Hv. unfold bounded in Hv.
  apply andb_true_iff in Hv as [Hc _].
  unfold canonical_mantissa, fexp, emin, F32.prec, F32.emax in Hc.
  apply Z.eqb_eq in Hc. lia.
Qed.





(** ** The order of the floating-point numbers *)

Ltac cmp_cases :=
  repeat match goal with
  | H : context [Pos.compare_cont Eq ?a ?b] |- _ =>
      change (Pos.compare_cont Eq a b) with (Pos.compare a b) in H
  | |- context [Pos.compare_cont Eq ?a ?b] =>
      change (Pos.compare_cont Eq a b) with (Pos.compare a b)
  | H : context [Z.compare ?a ?b] |- _ =>
      destruct (Z.compare_spec a b); cbn in H
  | H : context [Pos.compare ?a ?b] |- _ =>
      destruct (Pos.compare_spec a b); cbn in H
  | |- context [Z.compare ?a ?b] =>
      destruct (Z.compare_spec a b); cbn
  | |- context [Pos.compare ?a ?b] =>
      destruct (Pos.compare_spec a b); cbn
  end.

(** [<] and [<=] compose, also on numbers that are not normalised. *)
Lemma SFltb_leb_trans x y z :
  SFltb x y = true -> SFleb y z = true -> SFltb x z = true.
Proof.
  unfold SFltb, SFleb.
  destruct x as [[]|[]| |[] mx ex], y as [[]|[]| |[] my ey],
           z as [[]|[]| |[] mz ez]; cbn; intros H1 H2;
    try discriminate; try reflexivity;
    cmp_cases; try discriminate; try reflexivity; subst; lia.
Qed.

Lemma SFleb_ltb_trans x y z :
  SFleb x y = true -> SFltb y z = true -> SFltb x z = true.
Proof.
  unfold SFltb, SFleb.
  destruct x as [[]|[]| |[] mx ex], y as [[]|[]| |[] my ey],
           z as [[]|[]| |[] mz ez]; cbn; intros H1 H2;
    try discriminate; try reflexivity;
    cmp_cases; try discriminate; try reflexivity; subst; lia.
Qed.

(** Two numbers that are no NaN are comparable. *)
Lemma SFltb_total x y :
  x <> S754_nan -> y <> S754_nan -> SFltb x y = false -> SFleb y x = true.
Proof.
  unfold SFltb, SFleb. intros Hx Hy.
  destruct x as [[]|[]| |[] mx ex], y as [[]|[]| |[] my ey]; cbn; intros H;
    try discriminate; try reflexivity; try congruence;
    cmp_cases; try discriminate; try reflexivity; subst; lia.
Qed.

(** *** Promotion to [double] *)

Lemma iter_xO_digits (m k : positive) :
  digits2_pos (Pos.iter xO m k) = (digits2_pos m + k)%positive.
Proof.
  induction k as [|k IH] using Pos.peano_ind.
  - cbn. now rewrite Pos.add_1_r.
  - rewrite Pos.iter_succ. cbn [digits2_pos]. rewrite IH. lia.
Qed.

(** Promotion pads the mantissa of a binary32 number to 53 bits. *)
Lemma of_float_finite (s : bool) (m : positive) (e : Z) (k : positive) :
  Zpos (digits2_pos m) + Zpos k = 53 -> -1074 + Zpos k <= e <= 971 + Zpos k ->
  F64.of_float (S754_finite s m e)
  = S754_finite s (Pos.iter xO m k) (e - Zpos k).
Proof.
  intros Hd He. unfold F64.of_float, binary_round, shl_align, fexp, emin.
  unfold F64.prec, F64.emax.
  replace (Z.max (Z.pos (digits2_pos m) + e - 53) (3 - 1024 - 53) - e)
    with (Zneg k) by lia.
  replace (Z.max (Z.pos (digits2_pos m) + e - 53) (3 - 1024 - 53))
    with (e - Zpos k) by lia.
  unfold binary_round_aux, shr_fexp. cbn [Zdigits2].
  rewrite iter_xO_digits, Pos2Z.inj_add, Hd.
  unfold fexp, emin.
  replace (Z.max (53 + (e - Z.pos k) - 53) (3 - 1024 - 53) - (e - Z.pos k))
    with 0 by lia.
  cbn [shr shr_record_of_loc shr_m loc_of_shr_record round_nearest_even Zdigits2].
  rewrite iter_xO_digits, Pos2Z.inj_add, Hd.
  replace (Z.max (53 + (e - Z.pos k) - 53) (3 - 1024 - 53) - (e - Z.pos k))
    with 0 by lia.
  cbn [shr shr_m].
  destruct (Z.leb_spec (e - Z.pos k) (1024 - 53)); [reflexivity | lia].
Qed.

(** The mantissa and exponent of a valid binary32 number. *)
Lemma valid_finite (s : bool) (m : positive) (e : Z) :
  F32.valid (S754_finite s m e) = true ->
  -149 <= e <= 104 /\
  (Zpos (digits2_pos m) = 24 \/ (Zpos (digits2_pos m) < 24 /\ e = -149)).
Proof.
  unfold F32.valid, valid_binary, bounded, canonical_mantissa, fexp, emin,
    F32.prec, F32.emax.
  intros H. apply andb_true_iff in H as [Hc Hb].
  apply Z.eqb_eq in Hc. apply Z.leb_le in Hb. lia.
Qed.

(** Comparing the promoted distance with [5000.0] gives what comparing the
    [float] with [5000.0f] gives. *)
Lemma promoted_gt_5000 (d : spec_float) :
  F32.valid d = true ->
  F64.gtb (F64.of_float d) (F64.of_Z 5000) = F32.gtb d (F32.of_Z 5000).
Proof.
  intros Hv. destruct d as [s|s| |s m e]; try reflexivity.
  destruct (valid_finite s m e Hv) as [He [Hd|[Hd ->]]].
  - rewrite (of_float_finite s m e 29) by lia.
    change (F64.of_Z 5000) with (S754_finite false 5497558138880000 (-40)).
    change (F32.of_Z 5000) with (S754_finite false 10240000 (-11)).
    unfold F64.gtb, F32.gtb, SFltb. cbn [SFcompare].
    destruct s; [reflexivity|].
    destruct (Z.compare_spec (-40) (e - 29)), (Z.compare_spec (-11) e);
      try lia; reflexivity.
  - assert (Hk : exists k, Zpos (digits2_pos m) + Zpos k = 53 /\ 29 < Zpos k).
    { exists (Z.to_pos (53 - Zpos (digits2_pos m))). lia. }
    destruct Hk as (k & Hk & Hk29).
    rewrite (of_float_finite s m (-149) k) by lia.
    change (F64.of_Z 5000) with (S754_finite false 5497558138880000 (-40)).
    change (F32.of_Z 5000) with (S754_finite false 10240000 (-11)).
    unfold F64.gtb, F32.gtb, SFltb. cbn [SFcompare].
    destruct s; [reflexivity|].
    destruct (Z.compare_spec (-40) (-149 - Zpos k)); try lia. reflexivity.
Qed.

(** ** More on [Allowed] *)

(** X1: for a downward transition (that is no upward one) whose restriction
    bit is clear, [Allowed] returns true exactly when the distance is below
    50000 if the end node is on level 1, and exactly when it is below 10000
    on any other level, whatever the u-turn flag and the access mask; on
    level 1 it is allowed at 40000 and denied at 60000. *)
Theorem Allowed_trans_down (kAutoAccess : Z) (e : DirectedEdge) (r : Z)
    (u : bool) (d : spec_float) :
  trans_up e = false ->
  trans_down e = true ->
  Z.testbit r (localedgeidx e) = false ->
  (level (endnode e) = 1 ->
     (Allowed kAutoAccess e r u d = true <->
      F32.ltb d (F32.of_Z 50000) = true)) /\
  (level (endnode e) <> 1 ->
     (Allowed kAutoAccess e r u d = true <->
      F32.ltb d (F32.of_Z 10000) = true)) /\
  (level (endnode e) = 1 ->
     Allowed kAutoAccess e r u (F32.of_Z 40000) = true /\
     Allowed kAutoAccess e r u (F32.of_Z 60000) = false).
Proof.
  intros Hup Hdown Hbit.
  assert (Hdef : forall x, Allowed kAutoAccess e r u x =
            if level (endnode e) =? 1
            then F32.ltb x (F32.of_Z 50000) else F32.ltb x (F32.of_Z 10000)).
  { intros x. unfold Allowed.
    now rewrite (restricted_clear r e Hbit), Hup, Hdown. }
  rewrite !Hdef.
  destruct (Z.eqb_spec (level (endnode e)) 1) as [H1|H1];
    repeat split; intros; try contradiction; try assumption; reflexivity.
Qed.

Lemma Allowed_trans_down_witness :
  trans_up ramp_down = false /\
  trans_down ramp_down = true /\
  Z.testbit 0 (localedgeidx ramp_down) = false /\
  Allowed 1 ramp_down 0 false (F32.of_Z 40000) = true /\
  Allowed 1 ramp_down 0 false (F32.of_Z 60000) = false.
Proof.
  do 3 (split; [ reflexivity | ]).
  destruct (Allowed_trans_down 1 ramp_down 0 false (F32.of_Z 0))
    as (_ & _ & H); [ reflexivity | reflexivity | reflexivity | ].
  exact (H eq_refl).
Defined.

(** X2: [Allowed] is monotone in the distance on transitions: an upward
    transition allowed at some distance stays allowed at every larger one,
    a downward transition allowed at some distance stays allowed at every
    smaller one. *)
Theorem Allowed_transition_monotone (kAutoAccess : Z) (e : DirectedEdge)
    (r : Z) (u : bool) (d d' : spec_float) :
  F32.leb d d' = true ->
  (trans_up e = true ->
     Allowed kAutoAccess e r u d = true ->
     Allowed kAutoAccess e r u d' = true) /\
  (trans_up e = false -> trans_down e = true ->
     Allowed kAutoAccess e r u d' = true ->
     Allowed kAutoAccess e r u d = true).
Proof.
  intros Hle. unfold Allowed. split.
  - intros ->. destruct (restricted r e); [intros; discriminate|].
    unfold F32.gtb. destruct (level (endnode e) =? 0); intros H;
      exact (SFltb_leb_trans _ _ _ H Hle).
  - intros -> ->. destruct (restricted r e); [intros; discriminate|].
    unfold F32.ltb. destruct (level (endnode e) =? 1); intros H;
      exact (SFleb_ltb_trans _ _ _ Hle H).
Qed.

Lemma Allowed_transition_monotone_witness :
  F32.leb (F32.of_Z 60000) (F32.of_Z 70000) = true /\
  Allowed 1 ramp_up 0 false (F32.of_Z 70000) = true.
Proof.
  split; [ reflexivity | ].
  destruct (Allowed_transition_monotone 1 ramp_up 0 false
              (F32.of_Z 60000) (F32.of_Z 70000)) as [Hup _];
    [ reflexivity | ].
  apply Hup; reflexivity.
Defined.

(** X3: when the distance is a NaN every comparison is false: transitions
    are denied, the shortcut and no-thru tests do not fire, and an ordinary
    edge is allowed exactly when it is not restricted, the move is no
    u-turn and the access mask holds the automobile bit. *)
Theorem Allowed_nan_distance (kAutoAccess : Z) (e : DirectedEdge) (r : Z)
    (u : bool) :
  Allowed kAutoAccess e r u S754_nan
  = negb (restricted r e) && negb (trans_up e) && negb (trans_down e)
    && negb u && to_bool (Z.land (forwardaccess e) kAutoAccess).
Proof.
  unfold Allowed.
  destruct (restricted r e); [reflexivity|].
  destruct (trans_up e).
  { now destruct (level (endnode e) =? 0). }
  destruct (trans_down e).
  { now destruct (level (endnode e) =? 1). }
  destruct (shortcut e), u, (not_thru e); reflexivity.
Qed.

(** X4: what [Allowed] never lets through: an allowed edge has its
    restriction bit clear, and if it is no transition then the move is no
    u-turn, the access mask holds the automobile bit, it is no shortcut
    nearer than 10000 and the no-thru test did not fire. *)
Theorem Allowed_sound (kAutoAccess : Z) (e : DirectedEdge) (r : Z)
    (u : bool) (d : spec_float) :
  0 <= localedgeidx e < 32 ->
  Allowed kAutoAccess e r u d = true ->
  Z.testbit r (localedgeidx e) = false /\
  (trans_up e = false -> trans_down e = false ->
     u = false /\
     to_bool (Z.land (forwardaccess e) kAutoAccess) = true /\
     shortcut e && F32.ltb d (F32.of_Z 10000) = false /\
     not_thru_rule e d = false).
Proof.
  intros Hidx. unfold Allowed. rewrite restricted_testbit by exact Hidx.
  destruct (Z.testbit r (localedgeidx e)); [discriminate|].
  intros H. split; [reflexivity|]. intros Hup Hdown.
  rewrite Hup, Hdown in H. unfold not_thru_rule.
  destruct (shortcut e && F32.ltb d (F32.of_Z 10000)); [discriminate|].
  destruct u; [discriminate|]. cbn [orb] in H.
  destruct (not_thru e && F64.gtb (F64.of_float d) (F64.of_Z 5000));
    [discriminate|]. auto.
Qed.

Lemma Allowed_sound_witness :
  0 <= localedgeidx local_road < 32 /\
  Allowed 1 local_road 0 false (F32.of_Z 1000) = true /\
  Z.testbit 0 (localedgeidx local_road) = false.
Proof.
  split; [ simpl; lia | ]. split; [ reflexivity | ].
  destruct (Allowed_sound 1 local_road 0 false (F32.of_Z 1000))
    as [H _]; [ simpl; lia | reflexivity | exact H ].
Defined.

(** X5: [Allowed] reads one bit of the restriction mask: two masks that
    agree on bit [localedgeidx] give the same answer. *)
Theorem Allowed_other_bits (kAutoAccess : Z) (e : DirectedEdge) (r r' : Z)
    (u : bool) (d : spec_float) :
  0 <= localedgeidx e < 32 ->
  Z.testbit r (localedgeidx e) = Z.testbit r' (localedgeidx e) ->
  Allowed kAutoAccess e r u d = Allowed kAutoAccess e r' u d.
Proof.
  intros Hidx Hbit. unfold Allowed.
  now rewrite !restricted_testbit, Hbit by exact Hidx.
Qed.

Lemma Allowed_other_bits_witness :
  0 <= localedgeidx local_road < 32 /\
  Z.testbit (Z.lnot 8) (localedgeidx local_road)
    = Z.testbit 0 (localedgeidx local_road) /\
  Allowed 1 local_road (Z.lnot 8) false (F32.of_Z 1000)
    = Allowed 1 local_road 0 false (F32.of_Z 1000).
Proof.
  split; [ simpl; lia | ]. split; [ reflexivity | ].
  apply (Allowed_other_bits 1 local_road (Z.lnot 8) 0 false (F32.of_Z 1000));
    [ simpl; lia | reflexivity ].
Defined.

(** X6: on an edge that [Allowed] lets through, the predicate of
    [GetFilter] is true exactly when the edge is a transition: an allowed
    ordinary edge always passes the location filter, an allowed transition
    never does. *)
Theorem GetFilter_of_Allowed (kAutoAccess : Z) (e : DirectedEdge) (r : Z)
    (u : bool) (d : spec_float) :
  Allowed kAutoAccess e r u d = true ->
  GetFilter kAutoAccess e = trans_up e || trans_down e.
Proof.
  unfold Allowed, GetFilter.
  destruct (restricted r e); [discriminate|].
  destruct (trans_up e); [reflexivity|].
  destruct (trans_down e); [reflexivity|].
  destruct (shortcut e && F32.ltb d (F32.of_Z 10000)); [discriminate|].
  destruct (u || _); [discriminate|].
  now intros ->.
Qed.

Lemma GetFilter_of_Allowed_witness :
  Allowed 1 local_road 0 false (F32.of_Z 1000) = true /\
  GetFilter 1 local_road = false /\
  Allowed 1 ramp_up 0 false (F32.of_Z 60000) = true /\
  GetFilter 1 ramp_up = true.
Proof.
  split; [ reflexivity | ].
  split; [ apply (GetFilter_of_Allowed 1 local_road 0 false (F32.of_Z 1000));
           reflexivity | ].
  split; reflexivity.
Defined.

(** X7: the no-thru test compares in [double], and on every binary32
    distance that is the comparison with [5000.0f]: an ordinary edge with
    automobile access, no u-turn, is denied exactly when it is no-thru and
    the distance exceeds 5000 (allowed at 5000, denied at 5001). *)
Theorem no_thru_rule_float (kAutoAccess : Z) (e : DirectedEdge) (r : Z)
    (d : spec_float) :
  F32.valid d = true ->
  trans_up e = false -> trans_down e = false -> shortcut e = false ->
  Z.testbit r (localedgeidx e) = false ->
  to_bool (Z.land (forwardaccess e) kAutoAccess) = true ->
  Allowed kAutoAccess e r false d
  = negb (not_thru e && F32.gtb d (F32.of_Z 5000)).
Proof.
  intros Hv Hup Hdown Hsc Hbit Hacc. unfold Allowed.
  rewrite (restricted_clear r e Hbit), Hup, Hdown, Hsc, Hacc.
  rewrite promoted_gt_5000 by exact Hv.
  now destruct (not_thru e && F32.gtb d (F32.of_Z 5000)).
Qed.

Lemma no_thru_rule_float_witness :
  F32.valid (F32.of_Z 5000) = true /\
  Allowed 1 cul_de_sac 0 false (F32.of_Z 5000) = true /\
  Allowed 1 cul_de_sac 0 false (F32.of_Z 5001) = false.
Proof.
  split; [ reflexivity | ].
  split; [ | reflexivity ].
  rewrite (no_thru_rule_float 1 cul_de_sac 0 (F32.of_Z 5000)); reflexivity.
Defined.

(** X8: a shortcut that is also no-thru (and no transition) is denied at
    every distance that is a number: below 10000 by the shortcut test,
    from 10000 on by the no-thru test. *)
Theorem Allowed_no_thru_shortcut (kAutoAccess : Z) (e : DirectedEdge) (r : Z)
    (u : bool) (d : spec_float) :
  F32.valid d = true -> d <> S754_nan ->
  trans_up e = false -> trans_down e = false ->
  shortcut e = true -> not_thru e = true ->
  Allowed kAutoAccess e r u d = false.
Proof.
  intros Hv Hnan Hup Hdown Hsc Hnt. unfold Allowed.
  rewrite Hup, Hdown, Hsc, Hnt.
  destruct (restricted r e); [reflexivity|].
  destruct (F32.ltb d (F32.of_Z 10000)) eqn:Hnear; [reflexivity|].
  rewrite promoted_gt_5000 by exact Hv.
  assert (Hfar : SFleb (F32.of_Z 10000) d = true).
  { apply SFltb_total; [exact Hnan | discriminate | exact Hnear]. }
  assert (H5 : F32.gtb d (F32.of_Z 5000) = true).
  { unfold F32.gtb.
    apply (SFltb_leb_trans (F32.of_Z 5000) (F32.of_Z 10000) d);
      [ reflexivity | exact Hfar ]. }
  rewrite H5. now destruct u.
Qed.

Lemma Allowed_no_thru_shortcut_witness :
  F32.valid (F32.of_Z 20000) = true /\
  shortcut dead_end_shortcut = true /\
  not_thru dead_end_shortcut = true /\
  Allowed 1 dead_end_shortcut 0 false (F32.of_Z 20000) = false.
Proof.
  do 3 (split; [ reflexivity | ]).
  apply (Allowed_no_thru_shortcut 1 dead_end_shortcut 0 false (F32.of_Z 20000));
    try reflexivity. discriminate.
Defined.

Lemma to_bool_land_pow2 (a i : Z) :
  0 <= i -> to_bool (Z.land a (2 ^ i)) = Z.testbit a i.
Proof.
  intros Hi. unfold to_bool. rewrite land_pow2 by exact Hi.
  destruct (Z.testbit a i); [|reflexivity].
  assert (0 < 2 ^ i) by (apply Z.pow_pos_nonneg; lia).
  destruct (Z.eqb_spec (2 ^ i) 0); [lia|reflexivity].
Qed.

(** X9: when [kAutoAccess] is the single bit [i], [Allowed] on a node is
    bit [i] of the node's access mask, so the bits of the other modes have
    no say; and a node whose mask is empty is denied whatever the constant
    is. *)
Theorem Allowed_node_bit (i : Z) (node : NodeInfo) :
  0 <= i ->
  Allowed_node (2 ^ i) node = Z.testbit (access node) i /\
  (forall kAutoAccess, access node = 0 -> Allowed_node kAutoAccess node = false).
Proof.
  intros Hi. split.
  - unfold Allowed_node. now apply to_bool_land_pow2.
  - intros k H. unfold Allowed_node. now rewrite H.
Qed.

Lemma Allowed_node_bit_witness :
  0 <= 0 /\
  Allowed_node (2 ^ 0) (node_with 6) = false /\
  Allowed_node (2 ^ 0) (node_with 7) = true.
Proof.
  split; [ lia | ].
  destruct (Allowed_node_bit 0 (node_with 6)) as [H6 _]; [ lia | ].
  destruct (Allowed_node_bit 0 (node_with 7)) as [H7 _]; [ lia | ].
  split; [ rewrite H6 | rewrite H7 ]; reflexivity.
Defined.

(** ** More on the speed table and on [Get] *)

(** The complete result of rounding an exact mantissa of [d >= 25] digits
    in the normal range: 24 digits, within one unit of the last place kept,
    or infinity when the exponent passes 104. *)
Lemma binary_round_aux_normal (m : positive) (e d : Z) :
  Zpos (digits2_pos m) = d -> 25 <= d -> -149 <= d + e - 24 ->
  exists m' e',
    binary_round_aux 24 128 false (Zpos m) e loc_Exact
    = (if e' <=? 104 then S754_finite false m' e' else S754_infinity false) /\
    e + (d - 24) <= e' <= e + (d - 24) + 1 /\
    Zpos (digits2_pos m') = 24 /\
    Zpos m - 2 ^ (d - 24) < Zpos m' * 2 ^ (e' - e) <= Zpos m + 2 ^ (d - 24).
Proof.
  intros Hd Hd25 Hnorm.
  pose proof (digits2_pos_bounds m) as [Mlo Mhi]. rewrite Hd in Mlo, Mhi.
  unfold binary_round_aux, shr_fexp. cbn [Zdigits2]. rewrite Hd.
  unfold fexp, emin.
  replace (Z.max (d + e - 24) (3 - 128 - 24) - e) with (d - 24) by lia.
  destruct (d - 24) as [|n|n] eqn:Hn; try lia.
  cbn [shr shr_record_of_loc].
  set (mrs := SpecFloat.iter_pos shr_1 n _).
  assert (Hq : shr_m mrs = Zpos m / 2 ^ Zpos n)
    by (subst mrs; now rewrite iter_shr_1_m).
  assert (Hpow : 0 < 2 ^ Zpos n) by (apply Z.pow_pos_nonneg; lia).
  assert (Hsplit : 2 ^ (d - 1) = 2 ^ 23 * 2 ^ Zpos n /\ 2 ^ d = 2 ^ 24 * 2 ^ Zpos n).
  { split; rewrite <- Z.pow_add_r by lia; f_equal; lia. }
  destruct Hsplit as [E1 E2]. rewrite E1 in Mlo. rewrite E2 in Mhi.
  assert (Hqlo : 2 ^ 23 <= shr_m mrs)
    by (rewrite Hq; apply Z.div_le_lower_bound; lia).
  assert (Hqhi : shr_m mrs < 2 ^ 24)
    by (rewrite Hq; apply Z.div_lt_upper_bound; lia).
  assert (Hrem : Zpos m - 2 ^ Zpos n < shr_m mrs * 2 ^ Zpos n <= Zpos m).
  { rewrite Hq. pose proof (Z.mod_pos_bound (Zpos m) (2 ^ Zpos n) Hpow).
    pose proof (Z.div_mod (Zpos m) (2 ^ Zpos n)). lia. }
  pose proof (round_nearest_even_bounds (shr_m mrs) (loc_of_shr_record mrs)) as Hr.
  set (q' := round_nearest_even (shr_m mrs) (loc_of_shr_record mrs)) in *.
  destruct q' as [|q|q] eqn:Hq'; try lia.
  cbn [Zdigits2].
  destruct (Z_lt_le_dec (Zpos q) (2 ^ 24)) as [Hlt|Hge].
  - assert (Hdq : Zpos (digits2_pos q) = 24)
      by (apply digits2_pos_unique; change (24 - 1) with 23; lia).
    rewrite Hdq.
    replace (Z.max (24 + (e + Z.pos n) - 24) (3 - 128 - 24) - (e + Z.pos n))
      with 0 by lia.
    cbn [shr shr_m].
    exists q, (e + Zpos n). split; [reflexivity|]. split; [lia|].
    split; [exact Hdq|].
    replace (e + Zpos n - e) with (Zpos n) by lia. nia.
  - assert (Hq24 : Zpos q = 2 ^ 24) by lia.
    rewrite (digits2_pos_unique q 25)
      by (change (25 - 1) with 24; rewrite Hq24; cbn; lia).
    replace (Z.max (25 + (e + Z.pos n) - 24) (3 - 128 - 24) - (e + Z.pos n))
      with 1 by lia.
    change (2 ^ 24) with (Zpos 16777216) in Hq24. injection Hq24 as ->.
    cbn [shr shr_m SpecFloat.iter_pos shr_1].
    exists 8388608%positive, (e + Zpos n + 1). split; [reflexivity|].
    split; [lia|]. split; [reflexivity|].
    replace (e + Zpos n + 1 - e) with (1 + Zpos n) by lia.
    rewrite Z.pow_add_r by lia. change (2 ^ 23) with 8388608 in *.
    change (2 ^ 24) with 16777216 in *. change (2 ^ 1) with 2. nia.
Qed.

(** The [float] product of two positive normal numbers. *)
Lemma mul_normal (mx my : positive) (ex ey : Z) :
  Zpos (digits2_pos mx) = 24 -> Zpos (digits2_pos my) = 24 ->
  -172 <= ex + ey ->
  exists m' e',
    F32.mul (S754_finite false mx ex) (S754_finite false my ey)
    = (if e' <=? 104 then S754_finite false m' e' else S754_infinity false) /\
    -149 <= e' <= ex + ey + 25 /\
    Zpos (digits2_pos m') = 24 /\
    ((1 - (1 # 8388608))
       * (SF2Q (S754_finite false mx ex) * SF2Q (S754_finite false my ey))
     <= SF2Q (S754_finite false m' e')
     <= (1 + (1 # 8388608))
       * (SF2Q (S754_finite false mx ex) * SF2Q (S754_finite false my ey)))%Q.
Proof.
  intros Hx Hy He.
  pose proof (digits2_pos_bounds mx) as [Xlo Xhi]. rewrite Hx in Xlo, Xhi.
  pose proof (digits2_pos_bounds my) as [Ylo Yhi]. rewrite Hy in Ylo, Yhi.
  change (2 ^ (24 - 1)) with 8388608 in *. change (2 ^ 24) with 16777216 in *.
  set (d := Zpos (digits2_pos (mx * my))).
  pose proof (digits2_pos_bounds (mx * my)) as [Mlo Mhi]. fold d in Mlo, Mhi.
  assert (Hprod : 2 ^ 46 <= Zpos (mx * my) < 2 ^ 48).
  { rewrite Pos2Z.inj_mul. change (2 ^ 46) with (8388608 * 8388608).
    change (2 ^ 48) with (16777216 * 16777216). nia. }
  assert (Hd : 47 <= d <= 48).
  { split.
    - destruct (Z_lt_le_dec d 47) as [H|H]; [|exact H].
      assert (2 ^ d <= 2 ^ 46) by (apply Z.pow_le_mono_r; lia). lia.
    - destruct (Z_lt_le_dec 48 d) as [H|H]; [|exact H].
      assert (2 ^ 48 <= 2 ^ (d - 1)) by (apply Z.pow_le_mono_r; lia). lia. }
  unfold F32.mul. cbn [SFmul xorb].
  destruct (binary_round_aux_normal (mx * my) (ex + ey) d eq_refl
              ltac:(lia) ltac:(lia)) as (m' & e' & Hres & Hee & Hdm & Hlo & Hhi).
  exists m', e'. split; [exact Hres|]. split; [lia|]. split; [exact Hdm|].
  assert (E : 2 ^ (d - 1) = 2 ^ 23 * 2 ^ (d - 24))
    by (rewrite <- Z.pow_add_r by lia; f_equal; lia).
  rewrite E in Mlo.
  assert (Hz1 : (2 ^ 23 - 1) * Zpos (mx * my)
                <= 2 ^ 23 * (Zpos m' * 2 ^ (e' - (ex + ey)))) by lia.
  assert (Hz2 : 2 ^ 23 * (Zpos m' * 2 ^ (e' - (ex + ey)))
                <= (2 ^ 23 + 1) * Zpos (mx * my)) by lia.
  cbn [SF2Q cond_Zopp].
  assert (Hshift : (2 ^ e' == inject_Z (2 ^ (e' - (ex + ey))) * (2 ^ ex * 2 ^ ey))%Q).
  { replace e' with (ex + ey + (e' - (ex + ey))) at 1 by lia.
    rewrite Qpower2_shift by lia.
    now rewrite (Qpower_plus 2 ex ey) by discriminate. }
  rewrite Hshift.
  assert (Hq1 : ((inject_Z (2 ^ 23) - 1) * inject_Z (Zpos (mx * my))
                 <= inject_Z (2 ^ 23) * (inject_Z (Zpos m') * inject_Z (2 ^ (e' - (ex + ey)))))%Q).
  { change 1%Q with (inject_Z 1). unfold Qminus.
    rewrite <- inject_Z_opp, <- inject_Z_plus, <- !inject_Z_mult.
    rewrite <- Zle_Qle. exact Hz1. }
  assert (Hq2 : (inject_Z (2 ^ 23) * (inject_Z (Zpos m') * inject_Z (2 ^ (e' - (ex + ey))))
                 <= (inject_Z (2 ^ 23) + 1) * inject_Z (Zpos (mx * my)))%Q).
  { change 1%Q with (inject_Z 1).
    rewrite <- inject_Z_plus, <- !inject_Z_mult.
    rewrite <- Zle_Qle. exact Hz2. }
  rewrite Pos2Z.inj_mul, inject_Z_mult in Hq1, Hq2.
  change (inject_Z (2 ^ 23)) with (8388608 # 1)%Q in Hq1, Hq2.
  pose proof (Qpower2_pos ex) as Px. pose proof (Qpower2_pos ey) as Py.
  set (a := inject_Z (Zpos mx)) in *. set (b := inject_Z (Zpos my)) in *.
  set (c := inject_Z (Zpos m')) in *. set (k := inject_Z (2 ^ (e' - (ex + ey)))) in *.
  set (px := (2 ^ ex)%Q) in *. set (py := (2 ^ ey)%Q) in *.
  assert (Hpp : (0 < px * py)%Q) by (apply Qmult_lt_0_compat; assumption).
  assert (Hm1 : (((8388608 # 1) - 1) * (a * b) * (px * py)
                  <= (8388608 # 1) * (c * k) * (px * py))%Q)
    by (apply Qmult_le_compat_r; [exact Hq1 | apply Qlt_le_weak, Hpp]).
  assert (Hm2 : ((8388608 # 1) * (c * k) * (px * py)
                  <= ((8388608 # 1) + 1) * (a * b) * (px * py))%Q)
    by (apply Qmult_le_compat_r; [exact Hq2 | apply Qlt_le_weak, Hpp]).
  split; lra.
Qed.

Lemma read_speedfactor_at (s : Z) :
  0 <= s <= 254 ->
  read_speedfactor CreateAutoCost s = Some (speedfactor_at s).
Proof.
  intros Hs. unfold speedfactor_at, CreateAutoCost.
  destruct (Z.eqb_spec s 0) as [->|Hne].
  - apply read_speedfactor_0.
  - apply read_speedfactor_loop. lia.
Qed.

Lemma entry_normal_all (s : Z) :
  0 <= s <= 254 ->
  exists m x, speedfactor_at s = S754_finite false m x /\
    Zpos (digits2_pos m) = 24 /\ -30 <= x <= -12 /\
    F32.valid (S754_finite false m x) = true /\
    (s <> 0 -> F32.ltb (S754_finite false m x) kSecPerHour = true).
Proof.
  intros Hs.
  assert (Hall : forallb entry_normal (seqZ 0 255) = true)
    by (vm_compute; reflexivity).
  pose proof (forallb_seqZ _ _ _ Hall s ltac:(lia)) as H. clear Hall.
  unfold entry_normal in H.
  destruct (speedfactor_at s) as [| | |[] m x]; try discriminate H.
  apply andb_true_iff in H as [H Hlt]. apply andb_true_iff in H as [H Hv].
  apply andb_true_iff in H as [H Hx']. apply andb_true_iff in H as [Hd Hx].
  apply Z.leb_le in Hx, Hx'.
  exists m, x. split; [reflexivity|].
  split; [ apply Z.eqb_eq; exact Hd | ].
  split; [ lia | ].
  split; [ exact Hv | ].
  intros Hne. apply orb_true_iff in Hlt as [Hlt|Hz]; [exact Hlt|].
  apply Z.eqb_eq in Hz. contradiction.
Qed.

Lemma entry_gap_all (s s' : Z) :
  0 <= s < s' -> s' <= 254 ->
  ((1 + (1 # 8388608)) * SF2Q (speedfactor_at s')
   < (1 - (1 # 8388608)) * SF2Q (speedfactor_at s))%Q.
Proof.
  intros Hs Hs'.
  assert (Hall : forallb entry_gaps (seqZ 0 254) = true)
    by (vm_compute; reflexivity).
  pose proof (forallb_seqZ _ _ _ Hall s ltac:(lia)) as H. clear Hall.
  unfold entry_gaps in H.
  pose proof (forallb_seqZ _ _ _ H s' ltac:(lia)) as H'. clear H.
  unfold entry_gap in H'. apply negb_true_iff in H'.
  apply Qnot_le_lt. intros Hle. apply Qle_bool_iff in Hle. congruence.
Qed.

(** What [Get] returns on a written speed and a length in metres. *)
Lemma Get_rounds (logging : bool) (e : DirectedEdge) :
  0 <= speed e <= 254 ->
  metres (length e) = true ->
  exists c,
    snd (Get logging CreateAutoCost e) = Some c /\
    c = F32.mul (length e) (speedfactor_at (speed e)) /\
    (F32.leb (length e) (F32.of_Z 4294967296) = true ->
     is_finite c = true /\ F32.valid c = true) /\
    (is_finite c = true ->
     ((1 - (1 # 8388608)) * exact_cost e <= SF2Q c
      <= (1 + (1 # 8388608)) * exact_cost e)%Q).
Proof.
  intros Hs Hl.
  exists (F32.mul (length e) (speedfactor_at (speed e))).
  split.
  { unfold Get. cbn [snd]. now rewrite read_speedfactor_at by exact Hs. }
  split; [reflexivity|].
  destruct (entry_normal_all (speed e) Hs) as (m & x & Hent & Hd & Hx & Hv & _).
  unfold exact_cost. rewrite Hent.
  destruct (length e) as [sl|sl| |[] ml el]; try discriminate Hl.
  - cbn [SF2Q F32.mul SFmul is_finite]. split; [intros _; split; reflexivity|].
    intros _. split; lra.
  - destruct (metres_finite ml el Hl) as [Hdl Hel].
    destruct (mul_normal ml m el x Hdl Hd ltac:(lia))
      as (m' & e' & Hres & He' & Hdm' & Hb).
    rewrite Hres. split.
    + intros Hle.
      assert (Hel9 : el <= 9).
      { unfold F32.leb, SFleb in Hle.
        change (F32.of_Z 4294967296) with (S754_finite false 8388608 9) in Hle.
        cbn [SFcompare] in Hle.
        destruct (Z.compare_spec el 9); [lia | lia | discriminate Hle]. }
      assert (Hfit : (e' <=? 104) = true) by (apply Z.leb_le; lia).
      rewrite Hfit. split; [reflexivity|].
      unfold F32.valid. cbn [valid_binary]. unfold bounded, canonical_mantissa,
        fexp, emin, F32.prec, F32.emax.
      rewrite Hdm'. apply andb_true_iff. split.
      * apply Z.eqb_eq. lia.
      * apply Z.leb_le. apply Z.leb_le in Hfit. lia.
    + destruct (e' <=? 104); [intros _; exact Hb | discriminate].
Qed.

Lemma SF2Q_pos (m : positive) (e : Z) : (0 < SF2Q (S754_finite false m e))%Q.
Proof.
  cbn [SF2Q cond_Zopp]. apply Qmult_lt_0_compat.
  - unfold Qlt. simpl. lia.
  - apply Qpower2_pos.
Qed.

Lemma F32_mul_comm (x y : spec_float) : F32.mul x y = F32.mul y x.
Proof.
  unfold F32.mul, SFmul.
  destruct x as [sx|sx| |sx mx ex], y as [sy|sy| |sy my ey];
    try reflexivity; rewrite (xorb_comm sx sy); try reflexivity.
  now rewrite Pos.mul_comm, Z.add_comm.
Qed.

(** Along the table the rounded products of one length decrease. *)
Lemma mul_entry_decreasing (l c c' : spec_float) (s s' : Z) :
  metres l = true -> (0 < SF2Q l)%Q ->
  0 <= s < s' -> s' <= 254 ->
  c = F32.mul l (speedfactor_at s) -> c' = F32.mul l (speedfactor_at s') ->
  is_finite c = true -> is_finite c' = true ->
  (SF2Q c' < SF2Q c)%Q.
Proof.
  intros Hl Hpos Hs Hs' -> -> Hf Hf'.
  pose proof (entry_gap_all s s' Hs Hs') as Hgap.
  destruct (entry_normal_all s ltac:(lia)) as (m & x & Hent & Hd & Hx & _).
  destruct (entry_normal_all s' ltac:(lia)) as (m' & x' & Hent' & Hd' & Hx' & _).
  rewrite Hent, Hent' in *.
  destruct l as [sl|sl| |[] ml el]; try discriminate Hl.
  { cbn in Hpos. lra. }
  destruct (metres_finite ml el Hl) as [Hdl Hel].
  destruct (mul_normal ml m el x Hdl Hd ltac:(lia))
    as (r & e & Hres & _ & _ & Hb).
  destruct (mul_normal ml m' el x' Hdl Hd' ltac:(lia))
    as (r' & e' & Hres' & _ & _ & Hb').
  rewrite Hres in *. rewrite Hres' in *.
  destruct (e <=? 104); [|discriminate Hf].
  destruct (e' <=? 104); [|discriminate Hf'].
  set (lq := SF2Q (S754_finite false ml el)) in *.
  set (t := SF2Q (S754_finite false m x)) in *.
  set (t' := SF2Q (S754_finite false m' x')) in *.
  assert (Hg : (lq * ((1 + (1 # 8388608)) * t')
                < lq * ((1 - (1 # 8388608)) * t))%Q)
    by (apply Qmult_lt_l; assumption).
  lra.
Qed.

(** X10: the table has a written entry exactly at the indices 0..254:
    reading it gives nothing for a negative index and for every index
    from 255 on, inside the array or past its end. *)
Theorem speedfactor_domain (s : Z) :
  read_speedfactor CreateAutoCost s = None <-> s < 0 \/ 254 < s.
Proof.
  split.
  - intros H. destruct (Z_lt_le_dec s 0) as [|H0]; [now left|].
    destruct (Z_lt_le_dec 254 s) as [|H1]; [now right|].
    rewrite read_speedfactor_at in H by lia. discriminate.
  - intros [H|H]; unfold read_speedfactor, CreateAutoCost, AutoCost_ctor;
      cbn [speedfactor_].
    + destruct (Z.ltb_spec s 0); [reflexivity | lia].
    + destruct (Z.ltb_spec s 0); [reflexivity|].
      rewrite (fill_lookup_out speedfactor_entry) by lia.
      rewrite list_lookup_insert_ne by lia.
      destruct (replicate 256 None !! Z.to_nat s) as [y|] eqn:Hy;
        [|reflexivity].
      apply lookup_replicate_1 in Hy as [-> _]. reflexivity.
Qed.

Lemma speedfactor_domain_witness :
  read_speedfactor CreateAutoCost 256 = None /\
  read_speedfactor CreateAutoCost (-1) = None.
Proof.
  split; apply speedfactor_domain; [ right | left ]; lia.
Defined.

(** X11: every entry of a speed in 1..254 is a valid, finite, positive
    binary32 number strictly below the entry of speed 0, which is
    [kSecPerHour]: the unknown speed is the most expensive one. *)
Theorem speedfactor_positive (s : Z) :
  1 <= s <= 254 ->
  exists f,
    read_speedfactor CreateAutoCost s = Some f /\
    F32.valid f = true /\ is_finite f = true /\
    F32.ltb (F32.of_Z 0) f = true /\
    F32.ltb f kSecPerHour = true /\
    read_speedfactor CreateAutoCost 0 = Some kSecPerHour.
Proof.
  intros Hs.
  destruct (entry_normal_all s ltac:(lia)) as (m & x & Hent & _ & _ & Hv & Hlt).
  exists (speedfactor_at s). rewrite read_speedfactor_at by lia.
  rewrite Hent.
  split; [reflexivity|]. split; [exact Hv|]. split; [reflexivity|].
  split; [reflexivity|]. split; [apply Hlt; lia | apply read_speedfactor_0].
Qed.

Lemma speedfactor_positive_witness :
  1 <= 254 <= 254 /\
  exists f,
    read_speedfactor CreateAutoCost 254 = Some f /\
    F32.valid f = true /\ is_finite f = true /\
    F32.ltb (F32.of_Z 0) f = true /\
    F32.ltb f kSecPerHour = true /\
    read_speedfactor CreateAutoCost 0 = Some kSecPerHour.
Proof.
  split; [ lia | ]. apply (speedfactor_positive 254). lia.
Defined.

(** X12: an edge of length zero costs zero (with the sign of the zero) at
    every written speed. *)
Theorem Get_zero_length (logging : bool) (e : DirectedEdge) (sl : bool) :
  0 <= speed e <= 254 ->
  length e = S754_zero sl ->
  snd (Get logging CreateAutoCost e) = Some (S754_zero sl).
Proof.
  intros Hs Hl. unfold Get. cbn [snd].
  rewrite read_speedfactor_at by exact Hs.
  destruct (entry_normal_all (speed e) Hs) as (m & x & -> & _).
  rewrite Hl. cbn. now rewrite xorb_false_r.
Qed.

Lemma Get_zero_length_witness :
  0 <= speed ramp_up <= 254 /\
  length ramp_up = S754_zero false /\
  snd (Get false CreateAutoCost ramp_up) = Some (S754_zero false).
Proof.
  split; [ simpl; lia | ]. split; [ reflexivity | ].
  apply (Get_zero_length false ramp_up false); [ simpl; lia | reflexivity ].
Defined.

(** X13: on a written speed and a length in metres [Get] returns a value;
    for a length up to 2^32 that value is a finite, valid binary32 number;
    and whenever it is finite it lies within a factor [1 - 2^-23] ..
    [1 + 2^-23] of the exact product of the length and the table entry. *)
Theorem Get_accuracy (logging : bool) (e : DirectedEdge) :
  0 <= speed e <= 254 ->
  metres (length e) = true ->
  exists c,
    snd (Get logging CreateAutoCost e) = Some c /\
    (F32.leb (length e) (F32.of_Z 4294967296) = true ->
     is_finite c = true /\ F32.valid c = true) /\
    (is_finite c = true ->
     ((1 - (1 # 8388608)) * exact_cost e <= SF2Q c
      <= (1 + (1 # 8388608)) * exact_cost e)%Q).
Proof.
  intros Hs Hl.
  destruct (Get_rounds logging e Hs Hl) as (c & Hc & _ & Hfin & Hacc).
  exists c. auto.
Qed.

Lemma Get_accuracy_witness :
  0 <= speed local_road <= 254 /\
  metres (length local_road) = true /\
  exists c,
    snd (Get false CreateAutoCost local_road) = Some c /\
    (F32.leb (length local_road) (F32.of_Z 4294967296) = true ->
     is_finite c = true /\ F32.valid c = true) /\
    (is_finite c = true ->
     ((1 - (1 # 8388608)) * exact_cost local_road <= SF2Q c
      <= (1 + (1 # 8388608)) * exact_cost local_road)%Q).
Proof.
  split; [ simpl; lia | ]. split; [ reflexivity | ].
  apply (Get_accuracy false local_road); [ simpl; lia | reflexivity ].
Defined.

(** X14: of two edges of the same positive length, the one with the higher
    speed costs strictly less (speeds 0..254, finite costs): the rounding
    of the products never reverses the order of the table. *)
Theorem Get_faster_is_cheaper (logging : bool) (e1 e2 : DirectedEdge)
    (c1 c2 : spec_float) :
  length e1 = length e2 ->
  metres (length e1) = true -> (0 < SF2Q (length e1))%Q ->
  0 <= speed e1 < speed e2 -> speed e2 <= 254 ->
  snd (Get logging CreateAutoCost e1) = Some c1 ->
  snd (Get logging CreateAutoCost e2) = Some c2 ->
  is_finite c1 = true -> is_finite c2 = true ->
  (SF2Q c2 < SF2Q c1)%Q.
Proof.
  intros Hlen Hl Hpos Hs Hs' H1 H2 Hf1 Hf2.
  unfold Get in H1, H2. cbn [snd] in H1, H2.
  rewrite read_speedfactor_at in H1, H2 by lia.
  cbn [mbind option_bind] in H1, H2.
  apply (inj Some) in H1, H2. subst c1 c2.
  rewrite <- Hlen in *.
  now apply (mul_entry_decreasing (length e1) _ _ (speed e1) (speed e2)).
Qed.

Lemma Get_faster_is_cheaper_witness :
  length (road 1000 60) = length (road 1000 90) /\
  0 <= speed (road 1000 60) < speed (road 1000 90) /\
  (SF2Q (F32.mul (F32.of_Z 1000) (speedfactor_entry 90))
   < SF2Q (F32.mul (F32.of_Z 1000) (speedfactor_entry 60)))%Q.
Proof.
  split; [ reflexivity | ]. split; [ simpl; lia | ].
  apply (Get_faster_is_cheaper false (road 1000 60) (road 1000 90));
    try (vm_compute; reflexivity); simpl; lia.
Defined.

(** X15: for one edge of positive length, the estimate (the factor times
    the length, in [float]) against the cost [Get] returns: strictly below
    it when the speed is under 120, equal to it at 120, strictly above it
    when the speed is over 120. *)
Theorem estimate_on_one_edge (e : DirectedEdge) (c h : spec_float) :
  metres (length e) = true -> (0 < SF2Q (length e))%Q ->
  0 <= speed e <= 254 ->
  snd (Get false CreateAutoCost e) = Some c ->
  heuristic_f32 CreateAutoCost (length e) = Some h ->
  is_finite c = true -> is_finite h = true ->
  (speed e < 120 -> (SF2Q h < SF2Q c)%Q) /\
  (speed e = 120 -> h = c) /\
  (120 < speed e -> (SF2Q c < SF2Q h)%Q).
Proof.
  intros Hl Hpos Hs Hc Hh Hfc Hfh.
  unfold Get in Hc. cbn [snd] in Hc.
  rewrite read_speedfactor_at in Hc by lia.
  cbn [mbind option_bind] in Hc. apply (inj Some) in Hc. subst c.
  unfold heuristic_f32, AStarCostFactor in Hh.
  rewrite (read_speedfactor_at 120) in Hh by lia.
  cbn [mbind option_bind] in Hh. apply (inj Some) in Hh. subst h.
  rewrite (F32_mul_comm (speedfactor_at 120) (length e)) in *.
  split; [|split].
  - intros H.
    now apply (mul_entry_decreasing (length e) _ _ (speed e) 120); try lia.
  - intros ->. reflexivity.
  - intros H.
    now apply (mul_entry_decreasing (length e) _ _ 120 (speed e)); try lia.
Qed.

Lemma estimate_on_one_edge_witness :
  0 <= speed (road 1000 130) <= 254 /\
  (SF2Q (F32.mul (F32.of_Z 1000) (speedfactor_entry 130))
   < SF2Q (F32.mul (speedfactor_entry 120) (F32.of_Z 1000)))%Q.
Proof.
  split; [ simpl; lia | ].
  apply (estimate_on_one_edge (road 1000 130));
    try (vm_compute; reflexivity); simpl; lia.
Defined.

(** ** The cost as a function of the length *)

(** C6, as stated, fails in its last part: the cost does not scale
    linearly in the length.  At 60 km/h [Get] returns 60.0000038 for
    1000 m and 180 for 3000 m, while three times the former is 180.0000153
    in [float] and 180.0000114 exactly: each product is rounded on its
    own. *)
Lemma Get_not_linear :
  speed (road 1000 60) = speed (road 3000 60) /\
  length (road 3000 60) = F32.mul (F32.of_Z 3) (length (road 1000 60)) /\
  snd (Get false CreateAutoCost (road 1000 60))
    = Some (S754_finite false 15728641 (-18)) /\
  snd (Get false CreateAutoCost (road 3000 60)) = Some (F32.of_Z 180) /\
  F32.ltb (F32.of_Z 180)
          (F32.mul (F32.of_Z 3) (S754_finite false 15728641 (-18))) = true /\
  (SF2Q (F32.of_Z 180) < 3 * SF2Q (S754_finite false 15728641 (-18)))%Q.
Proof.
  do 5 (split; [ vm_compute; reflexivity | ]).
  vm_compute. reflexivity.
Qed.

(** C6, amended: on an edge of speed [s] in 1..254 [Get] returns
    [length * ((3600 * 0.001f) / s)], and on speed 0 it returns
    [length * 3600], all in [float] arithmetic; the factor is the table
    entry of the speed and does not depend on the length, so 1000 m at
    speed 60 cost [1000 * table[60]].  The cost scales linearly in the
    length up to rounding: for a length in metres a finite cost lies
    within the factors [1 - 2^-23] and [1 + 2^-23] of the exact product
    of the length and the entry, and when a length is [k] times another
    the cost is [k] times the other cost within the quotient of these
    two factors, either way. *)
Theorem Get_linear_up_to_rounding (logging : bool) (e : DirectedEdge) :
  (1 <= speed e <= 254 ->
     snd (Get logging CreateAutoCost e)
     = Some (F32.mul (length e)
               (F32.div (F32.mul (F32.of_Z 3600) F32.lit_0_001)
                        (F32.of_Z (speed e))))) /\
  (speed e = 0 ->
     snd (Get logging CreateAutoCost e)
     = Some (F32.mul (length e) (F32.of_Z 3600))) /\
  (0 <= speed e <= 254 ->
     exists f, read_speedfactor CreateAutoCost (speed e) = Some f /\
       forall e', speed e' = speed e ->
         snd (Get logging CreateAutoCost e') = Some (F32.mul (length e') f)) /\
  (speed e = 60 -> length e = F32.of_Z 1000 ->
     exists f, read_speedfactor CreateAutoCost 60 = Some f /\
       snd (Get logging CreateAutoCost e) = Some (F32.mul (F32.of_Z 1000) f)) /\
  (0 <= speed e <= 254 -> metres (length e) = true ->
     exists c,
       snd (Get logging CreateAutoCost e) = Some c /\
       (is_finite c = true ->
        ((1 - (1 # 8388608)) * exact_cost e <= SF2Q c
         <= (1 + (1 # 8388608)) * exact_cost e)%Q)) /\
  (forall (e' : DirectedEdge) (c c' : spec_float) (k : Q),
     0 <= speed e <= 254 -> speed e' = speed e ->
     metres (length e) = true -> metres (length e') = true ->
     (0 <= k)%Q -> (SF2Q (length e') == k * SF2Q (length e))%Q ->
     snd (Get logging CreateAutoCost e) = Some c ->
     snd (Get logging CreateAutoCost e') = Some c' ->
     is_finite c = true -> is_finite c' = true ->
     ((1 - (1 # 8388608)) * (k * SF2Q c) <= (1 + (1 # 8388608)) * SF2Q c' /\
      (1 - (1 # 8388608)) * SF2Q c' <= (1 + (1 # 8388608)) * (k * SF2Q c))%Q).
Proof.
  split; [| split; [| split; [| split; [| split]]]].
  - intros Hs. unfold Get, CreateAutoCost. cbn [snd].
    now rewrite read_speedfactor_loop by lia.
  - intros H0. unfold Get, CreateAutoCost. cbn [snd].
    now rewrite H0, read_speedfactor_0.
  - intros Hs. exists (speedfactor_at (speed e)).
    split; [ apply read_speedfactor_at; exact Hs | ].
    intros e' He'. unfold Get. cbn [snd].
    now rewrite He', read_speedfactor_at by exact Hs.
  - intros Hs Hl. exists (speedfactor_entry 60).
    unfold Get, CreateAutoCost. cbn [snd].
    rewrite Hs, Hl, read_speedfactor_loop by lia. split; reflexivity.
  - intros Hs Hl.
    destruct (Get_rounds logging e Hs Hl) as (c & Hc & _ & _ & Hacc).
    exists c. split; assumption.
  - intros e' c c' k Hs He' Hl Hl' Hk HL Hc Hc' Hf Hf'.
    destruct (Get_rounds logging e Hs Hl) as (c0 & Hc0 & _ & _ & Hacc).
    destruct (Get_rounds logging e' ltac:(lia) Hl') as (c0' & Hc0' & _ & _ & Hacc').
    rewrite Hc in Hc0. apply (inj Some) in Hc0. subst c0.
    rewrite Hc' in Hc0'. apply (inj Some) in Hc0'. subst c0'.
    specialize (Hacc Hf). specialize (Hacc' Hf').
    unfold exact_cost in Hacc, Hacc'. rewrite He' in Hacc'.
    set (t := SF2Q (speedfactor_at (speed e))) in *.
    assert (E : (SF2Q (length e') * t == k * (SF2Q (length e) * t))%Q)
      by (rewrite HL; ring).
    rewrite E in Hacc'.
    set (x := (SF2Q (length e) * t)%Q) in *.
    destruct Hacc as [Hlo Hhi]. destruct Hacc' as [Hlo' Hhi'].
    assert (K1 : (k * ((1 - (1 # 8388608)) * x) <= k * SF2Q c)%Q).
    { rewrite !(Qmult_comm k). now apply Qmult_le_compat_r. }
    assert (K2 : (k * SF2Q c <= k * ((1 + (1 # 8388608)) * x))%Q).
    { rewrite !(Qmult_comm k). now apply Qmult_le_compat_r. }
    set (kc := (k * SF2Q c)%Q) in *.
    assert (R1 : (k * ((1 - (1 # 8388608)) * x) == (1 - (1 # 8388608)) * (k * x))%Q) by ring.
    assert (R2 : (k * ((1 + (1 # 8388608)) * x) == (1 + (1 # 8388608)) * (k * x))%Q) by ring.
    rewrite R1 in K1. rewrite R2 in K2.
    set (kx := (k * x)%Q) in *.
    split; lra.
Qed.

Lemma Get_linear_up_to_rounding_witness :
  1 <= speed local_road <= 254 /\
  snd (Get false CreateAutoCost local_road)
  = Some (F32.mul (F32.of_Z 1000)
            (F32.div (F32.mul (F32.of_Z 3600) F32.lit_0_001) (F32.of_Z 60))) /\
  ((1 - (1 # 8388608)) * (3 * SF2Q (S754_finite false 15728641 (-18)))
   <= (1 + (1 # 8388608)) * SF2Q (F32.of_Z 180))%Q.
Proof.
  split; [ simpl; lia | ].
  destruct (Get_linear_up_to_rounding false (road 1000 60))
    as (Hv & _ & _ & _ & _ & Hscale).
  split; [ apply Hv; simpl; lia | ].
  apply (Hscale (road 3000 60) (S754_finite false 15728641 (-18))
           (F32.of_Z 180) 3%Q);
    try (vm_compute; reflexivity); try (simpl; lia).
  vm_compute. discriminate.
Defined.

End thor.
